(** * orangeom_globals.hpp: export annotations, wrapper forwarding and the
  PyTRY / PyCATCH exception boundary

    The header consists of preprocessor directives only.  The development
    has two layers:

    - [Cpp]: the header as a list of directives, the effect of processing
      them on the macro table, and macro replacement;
    - [Boundary]: the statement that [PyTRY ... PyCATCH_r(r)] expands to,
      as a state-passing function with C++'s three ways of leaving a block
      (falling through, [return], [throw]). *)

From Stdlib Require Import ZArith Lia.
From stdpp Require Import gmap strings list fin_maps.

Local Open Scope string_scope.
Local Open Scope list_scope.

(** ** Preprocessing tokens *)

Inductive punct :=
  | LParen | RParen | Comma | LBrace | RBrace | Semi | Star | Minus | Dot.

Inductive token :=
  | Ident (s : string)       (* identifiers and keywords *)
  | P (p : punct)
  | Num (digits : string).   (* pp-number *)

#[global] Instance punct_eq_dec : EqDecision punct.
Proof. solve_decision. Defined.
#[global] Instance token_eq_dec : EqDecision token.
Proof. solve_decision. Defined.

(** A macro: [params = None] for an object-like macro, [Some ps] for a
  function-like one. *)
Record macro := Macro { params : option (list string); body : list token }.

#[global] Instance macro_eq_dec : EqDecision macro.
Proof. solve_decision. Defined.

(** The directives the header uses. *)
#[warnings="-register-all"]
Inductive directive :=
  | Ifdef (name : string) (thens elses : list directive)
  | Ifndef (name : string) (thens elses : list directive)
  | Define (name : string) (ps : option (list string)) (repl : list token)
  | Include (path : string)
  | PragmaCommentLib (lib : string).

(** What processing a directive asks of the tool chain. *)
Inductive request :=
  | LinkLib (lib : string)
  | IncludeFile (path : string).

#[global] Instance request_eq_dec : EqDecision request.
Proof. solve_decision. Defined.

Record pp_state := PP { macros : gmap string macro; emitted : list request }.

Module Cpp.

Definition defined (name : string) (env : gmap string macro) : bool :=
  match env !! name with Some _ => true | None => false end.

Section Exec.
(** The two included files (garbage.hpp, ../pyxtract/pyxtract_macros.hpp)
    are not part of this header: their effect on the macro table is a
    parameter. *)
Variable included : string -> gmap string macro -> gmap string macro.

Fixpoint exec (d : directive) (st : pp_state) {struct d} : pp_state :=
  let block :=
    fix block (ds : list directive) (st : pp_state) {struct ds} : pp_state :=
      match ds with
      | [] => st
      | d' :: ds' => block ds' (exec d' st)
      end in
  match d with
  | Ifdef n t e => if defined n (macros st) then block t st else block e st
  | Ifndef n t e => if defined n (macros st) then block e st else block t st
  | Define n ps repl => PP (<[n := Macro ps repl]> (macros st)) (emitted st)
  | Include path =>
      PP (included path (macros st)) (emitted st ++ [IncludeFile path])
  | PragmaCommentLib lib => PP (macros st) (emitted st ++ [LinkLib lib])
  end.

Fixpoint exec_block (ds : list directive) (st : pp_state) : pp_state :=
  match ds with
  | [] => st
  | d :: ds' => exec_block ds' (exec d st)
  end.

Definition preprocess (ds : list directive) (env : gmap string macro) : pp_state :=
  exec_block ds (PP env []).
End Exec.

(** Names bound by a [#define] anywhere in a directive, in whichever
    branch. *)
Fixpoint defines (d : directive) : list string :=
  let block :=
    fix block (ds : list directive) : list string :=
      match ds with
      | [] => []
      | d' :: ds' => defines d' ++ block ds'
      end in
  match d with
  | Ifdef _ t e | Ifndef _ t e => block t ++ block e
  | Define n _ _ => [n]
  | Include _ | PragmaCommentLib _ => []
  end.

Definition defines_block (ds : list directive) : list string :=
  flat_map defines ds.

(** The libraries asked for so far. *)
Definition libs (st : pp_state) : list string :=
  omap (fun r => match r with LinkLib l => Some l | IncludeFile _ => None end)
       (emitted st).

(** *** Macro replacement

    Tokens carry the set of macro names they must not be replaced by
    again (the names whose replacement produced them). *)
Definition htoken : Type := token * list string.

Definition plain (ts : list token) : list htoken := map (fun t => (t, [])) ts.
Definition erase (ts : list htoken) : list token := map fst ts.
Definition hsadd (hs : list string) (ts : list htoken) : list htoken :=
  map (fun th => (fst th, hs ++ snd th)) ts.
Definition inter (a b : list string) : list string :=
  filter (fun x => x ∈ b) a.

Fixpoint index_of (x : string) (ps : list string) : option nat :=
  match ps with
  | [] => None
  | p :: ps' => if decide (p = x) then Some 0 else S <$> index_of x ps'
  end.

(** The replacement list of a function-like macro with each parameter
    replaced by the corresponding (already expanded) argument. *)
Definition subst (ps : list string) (args : list (list htoken))
    (repl : list token) : list htoken :=
  flat_map (fun t =>
    match t with
    | Ident x =>
        match index_of x ps with
        | Some i => default [] (args !! i)
        | None => [(t, [])]
        end
    | _ => [(t, [])]
    end) repl.

(** Arguments of an invocation, after the opening parenthesis: split at
    commas outside nested parentheses, up to the matching [)]. *)
Fixpoint collect (depth : nat) (cur : list htoken) (acc : list (list htoken))
    (ts : list htoken) : option (list (list htoken) * list string * list htoken) :=
  match ts with
  | [] => None
  | (P RParen, hs) :: rest =>
      match depth with
      | 0 => Some (rev (rev cur :: acc), hs, rest)
      | S d => collect d ((P RParen, hs) :: cur) acc rest
      end
  | (P LParen, hs) :: rest => collect (S depth) ((P LParen, hs) :: cur) acc rest
  | (P Comma, hs) :: rest =>
      match depth with
      | 0 => collect 0 [] (rev cur :: acc) rest
      | S _ => collect depth ((P Comma, hs) :: cur) acc rest
      end
  | t :: rest => collect depth (t :: cur) acc rest
  end.

Fixpoint expand (fuel : nat) (env : gmap string macro) (ts : list htoken)
    : option (list htoken) :=
  match fuel with
  | 0 => None
  | S fuel' =>
      match ts with
      | [] => Some []
      | (Ident n, hs) :: rest =>
          if bool_decide (n ∈ hs) then cons (Ident n, hs) <$> expand fuel' env rest
          else
            match env !! n with
            | None => cons (Ident n, hs) <$> expand fuel' env rest
            | Some (Macro None repl) =>
                expand fuel' env (hsadd (n :: hs) (plain repl) ++ rest)
            | Some (Macro (Some ps) repl) =>
                match rest with
                | (P LParen, _) :: rest' =>
                    match collect 0 [] [] rest' with
                    | None => None
                    | Some (args, hs', rest'') =>
                        if decide (length args = length ps) then
                          args' ← mapM (expand fuel' env) args;
                          expand fuel' env
                            (hsadd (n :: inter hs hs') (subst ps args' repl) ++ rest'')
                        else None
                    end
                | _ => cons (Ident n, hs) <$> expand fuel' env rest
                end
            end
      | t :: rest => cons t <$> expand fuel' env rest
      end
  end.

Definition expand_tokens (fuel : nat) (env : gmap string macro) (ts : list token)
    : option (list token) :=
  erase <$> expand fuel env (plain ts).

End Cpp.

(** ** The header, directive by directive *)

Definition declspec (what : string) : list token :=
  [Ident "__declspec"; P LParen; Ident what; P RParen].

(** Lines 6-23. *)
Definition visibility_block : list directive :=
  [ Ifdef "_MSC_VER"
      [ Ifdef "ORANGEOM_EXPORTS"
          [ Define "ORANGEOM_API" None (declspec "dllexport");
            Define "EXPIMP_TEMPLATE" None [] ]
          [ Define "ORANGEOM_API" None (declspec "dllimport");
            Define "EXPIMP_TEMPLATE" None [Ident "extern"];
            Ifdef "_DEBUG"
              [ PragmaCommentLib "orange_d.lib" ]
              [ PragmaCommentLib "orange.lib" ] ] ]
      [ Define "ORANGEOM_API" None [];
        Define "EXPIMP_TEMPLATE" None [] ] ].

(** Lines 25-26. *)
Definition wrapper_block : list directive :=
  [ Define "OMWRAPPER" (Some ["x"])
      [Ident "BASIC_WRAPPER"; P LParen; Ident "x"; P Comma;
       Ident "ORANGENE_API"; P RParen];
    Define "OMVWRAPPER" (Some ["x"])
      [Ident "BASIC_VWRAPPER"; P LParen; Ident "x"; P Comma;
       Ident "ORANGENE_API"; P RParen] ].

(** Lines 31-40. *)
Definition catch_block : list directive :=
  [ Define "PyTRY" None [Ident "try"; P LBrace];
    Define "PYNULL" None
      [P LParen; P LParen; Ident "PyObject"; P Star; P RParen; Ident "NULL"; P RParen];
    Define "PyCATCH" None [Ident "PyCATCH_r"; P LParen; Ident "PYNULL"; P RParen];
    Define "PyCATCH_1" None [Ident "PyCATCH_r"; P LParen; P Minus; Num "1"; P RParen];
    Define "PyCATCH_r" (Some ["r"])
      [ P RBrace;
        Ident "catch"; P LParen; Ident "pyexception"; Ident "err"; P RParen;
        P LBrace;
          Ident "err"; P Dot; Ident "restore"; P LParen; P RParen; P Semi;
          Ident "return"; Ident "r"; P Semi;
        P RBrace;
        Ident "catch"; P LParen; Ident "mlexception"; Ident "err"; P RParen;
        P LBrace;
          Ident "PYERROR"; P LParen; Ident "PyExc_OrangeKernel"; P Comma;
            Ident "err"; P Dot; Ident "what"; P LParen; P RParen; P Comma;
            Ident "r"; P RParen; P Semi;
        P RBrace ] ].

Definition orangeom_globals_hpp : list directive :=
  [ Ifndef "__ORANGEOM_GLOBALS"
      ( [ Define "__ORANGEOM_GLOBALS" None [];
          Include "garbage.hpp" ]
        ++ visibility_block
        ++ wrapper_block
        ++ [ Include "../pyxtract/pyxtract_macros.hpp" ]
        ++ catch_block )
      [] ].

(** ** The guarded region at run time

    With the macros replaced, a function body written as
    [PyTRY body PyCATCH_r(r)] reads
<<
    try { body }
    catch (pyexception err) { err.restore(); return r; }
    catch (mlexception err) { PYERROR(PyExc_OrangeKernel, err.what(), r); }
>>
    (lemma [guarded_region_expansion] below).  The classes [pyexception] and
    [mlexception], the object [PyExc_OrangeKernel] and the host's error
    indicator are declared outside this header; they are the fields of
    [Runtime]. *)

Class Runtime := {
  category : Type;                       (* host error categories *)
  PyExc_OrangeKernel : category;
  PyObject : Type;
  pyexception : Type;
  mlexception : Type;
  foreign : Type;                        (* anything else that can be thrown *)
  heap : Type;                           (* native state the region works on *)
  (* pyexception::restore, acting on the host's error indicator *)
  restore : pyexception -> option (category * string) -> option (category * string);
  (* mlexception::what *)
  what : mlexception -> string
}.

Module Boundary.
Section WithRuntime.
Context `{RT : Runtime}.

(** The host's error indicator: clear, or a category with its message. *)
Definition error_indicator : Type := option (category * string).

Record state := State { host_error : error_indicator; native : heap }.

(** A thrown object, by the handler type it matches. *)
Inductive exn :=
  | ExPy (err : pyexception)
  | ExMl (err : mlexception)
  | ExOther (err : foreign).

(** How control leaves a statement of a function returning [R]. *)
Inductive outcome (R : Type) :=
  | Fallthrough
  | Return (v : R)
  | Throw (e : exn).
Arguments Fallthrough {R}.
Arguments Return {R} v.
Arguments Throw {R} e.

Definition stmt (R : Type) : Type := state -> outcome R * state.

Definition skip {R} : stmt R := fun s => (Fallthrough, s).
Definition ret {R} (v : R) : stmt R := fun s => (Return v, s).
Definition throw {R} (e : exn) : stmt R := fun s => (Throw e, s).

(** [a; b] *)
Definition seq {R} (a b : stmt R) : stmt R :=
  fun s =>
    match a s with
    | (Fallthrough, s') => b s'
    | other => other
    end.

(** A handler applies to the thrown objects its declared type matches. *)
Definition handler (R : Type) : Type := exn -> option (stmt R).

Definition catch_pyexception {R} (h : pyexception -> stmt R) : handler R :=
  fun e => match e with ExPy err => Some (h err) | _ => None end.

Definition catch_mlexception {R} (h : mlexception -> stmt R) : handler R :=
  fun e => match e with ExMl err => Some (h err) | _ => None end.

(** Handlers are tried in the order they are written. *)
Fixpoint select {R} (hs : list (handler R)) (e : exn) : option (stmt R) :=
  match hs with
  | [] => None
  | h :: hs' =>
      match h e with
      | Some body => Some body
      | None => select hs' e
      end
  end.

(** [try { region } hs] *)
Definition try_catch {R} (region : stmt R) (hs : list (handler R)) : stmt R :=
  fun s =>
    match region s with
    | (Throw e, s') =>
        match select hs e with
        | Some body => body s'
        | None => (Throw e, s')
        end
    | other => other
    end.

(** [err.restore();] *)
Definition err_restore {R} (err : pyexception) : stmt R :=
  fun s => (Fallthrough, State (restore err (host_error s)) (native s)).

(** Modelled from the spec: the macro PYERROR comes from
    ../pyxtract/pyxtract_macros.hpp, which is not part of this header.  The
    spec describes its use here as a generic-error report carrying the
    error category and the message text, which also returns the sentinel. *)
Definition PYERROR {R} (type : category) (message : string) (result : R) : stmt R :=
  fun s => (Return result, State (Some (type, message)) (native s)).

(** The two handlers of [PyCATCH_r(r)].  [r] is the value of the sentinel
    expression written at the call site. *)
Definition PyCATCH_r_handlers {R} (r : R) : list (handler R) :=
  [ catch_pyexception (fun err => seq (err_restore err) (ret r));
    catch_mlexception (fun err => PYERROR PyExc_OrangeKernel (what err) r) ].

(** [PyTRY region PyCATCH_r(r)] *)
Definition PyCATCH_r {R} (r : R) (region : stmt R) : stmt R :=
  try_catch region (PyCATCH_r_handlers r).

(** Whether one of the handlers applies to a thrown object. *)
Definition caught {R} (r : R) (e : exn) : bool :=
  match select (PyCATCH_r_handlers r) e with
  | Some _ => true
  | None => false
  end.

Definition raises {R} (o : outcome R) : bool :=
  match o with Throw _ => true | _ => false end.

(** [((PyObject * )NULL)] *)
Definition PYNULL : option PyObject := None.

(** [PyTRY region PyCATCH]: both handlers return [((PyObject * )NULL)],
    which the [return] statement converts to the return type [R] of the
    enclosing function ([convert] is the identity in a function returning
    [PyObject *]). *)
Definition PyCATCH {R} (convert : option PyObject -> R) (region : stmt R) : stmt R :=
  PyCATCH_r (convert PYNULL) region.

(** [PyTRY region PyCATCH_1]: both handlers return the int [-1], converted
    to the return type of the enclosing function. *)
Definition PyCATCH_1 {R} (convert : Z -> R) (region : stmt R) : stmt R :=
  PyCATCH_r (convert (-1)%Z) region.

(** The two outward results the spec names for a failure. *)
Definition restore_and_return {R} (r : R) (err : pyexception) (s' : state)
    : outcome R * state :=
  (Return r, State (restore err (host_error s')) (native s')).

Definition generic_error_report {R} (r : R) (err : mlexception) (s' : state)
    : outcome R * state :=
  (Return r, State (Some (PyExc_OrangeKernel, what err)) (native s')).

(** The claim that every failure of the region ends in one of those two. *)
Definition two_outcomes {R} (r : R) (region : stmt R) (s : state) : Prop :=
  forall e s', region s = (Throw e, s') ->
    (exists err, PyCATCH_r r region s = restore_and_return r err s')
    \/ (exists err, PyCATCH_r r region s = generic_error_report r err s').

End WithRuntime.

Arguments Fallthrough {RT R}.
Arguments Return {RT R} v.
Arguments Throw {RT R} e.

End Boundary.

(** What [return -1;] yields by the return type of the function: the value
    itself for [int], its residue modulo 2^32 for a 32-bit [unsigned], and
    whether it is non-zero for [bool]. *)
Definition to_int (z : Z) : Z := z.
Definition to_unsigned (z : Z) : Z := (z mod 2 ^ 32)%Z.
Definition to_bool (z : Z) : bool := negb (z =? 0)%Z.

(** A small runtime to run the definitions on: categories are named, a
    [pyexception] carries the indicator it captured, an [mlexception] its
    description, and the native state counts the executions of a region. *)
Definition demo_runtime : Runtime := {|
  category := string;
  PyExc_OrangeKernel := "PyExc_OrangeKernel";
  PyObject := nat;
  pyexception := option (string * string);
  mlexception := string;
  foreign := Z;
  heap := nat;
  restore := fun err _ => err;
  what := fun err => err
|}.

(** One replacement step of a function-like macro invocation. *)
Definition invoke (env : gmap string macro) (name : string)
    (args : list (list Cpp.htoken)) : option (list token) :=
  match env !! name with
  | Some (Macro (Some ps) repl) =>
      if decide (length args = length ps)
      then Some (Cpp.erase (Cpp.subst ps args repl))
      else None
  | _ => None
  end.

(** Included files that leave the macro table alone. *)
Definition no_includes : string -> gmap string macro -> gmap string macro :=
  fun _ env => env.

(** The macro table after the header, from an empty one. *)
Definition header_env : gmap string macro :=
  macros (Cpp.preprocess no_includes orangeom_globals_hpp ∅).

Definition flag (names : list string) : gmap string macro :=
  list_to_map (map (fun n => (n, Macro None [])) names).

(** The handlers of [PyCATCH_r(r)] as tokens. *)
Definition catch_clauses (r : list token) : list token :=
  [ P RBrace;
    Ident "catch"; P LParen; Ident "pyexception"; Ident "err"; P RParen;
    P LBrace;
      Ident "err"; P Dot; Ident "restore"; P LParen; P RParen; P Semi;
      Ident "return" ] ++ r ++ [ P Semi;
    P RBrace;
    Ident "catch"; P LParen; Ident "mlexception"; Ident "err"; P RParen;
    P LBrace;
      Ident "PYERROR"; P LParen; Ident "PyExc_OrangeKernel"; P Comma;
        Ident "err"; P Dot; Ident "what"; P LParen; P RParen; P Comma ]
      ++ r ++ [ P RParen; P Semi;
    P RBrace ].

Definition PYNULL_tokens : list token :=
  [P LParen; P LParen; Ident "PyObject"; P Star; P RParen; Ident "NULL"; P RParen].

Module Demo.
Import Boundary.
#[local] Existing Instance demo_runtime.

Definition start : state := State None 0.

(** One more execution of the statement it stands in. *)
Definition tick {R} : stmt R :=
  fun s => (Fallthrough, State (host_error s) (S (native s))).

(** A region that fails half way. *)
Definition failing {R} (e : exn) : stmt R := seq tick (seq (throw e) tick).

(** A region that succeeds. *)
Definition succeeding : stmt (option nat) := seq tick (seq tick (ret (Some 7))).

Definition type_error : exn := ExPy (Some ("PyExc_TypeError", "bad argument")).
Definition kernel_error : exn := ExMl "invalid graph".
Definition foreign_error : exn := ExOther 5%Z.
End Demo.

(** ** Tokens that macro replacement leaves alone *)

(** An identifier that names no macro, a punctuator or a number. *)
Definition inert (env : gmap string macro) (t : token) : bool :=
  match t with
  | Ident n => negb (Cpp.defined n env)
  | _ => true
  end.

(** Parenthesis depth after a token sequence that can stand inside one
    macro argument: no closing parenthesis and no comma at depth 0. *)
Fixpoint depth_after (d : nat) (ts : list token) : option nat :=
  match ts with
  | [] => Some d
  | P LParen :: ts' => depth_after (S d) ts'
  | P RParen :: ts' =>
      match d with
      | 0 => None
      | S d' => depth_after d' ts'
      end
  | P Comma :: ts' =>
      match d with
      | 0 => None
      | S _ => depth_after d ts'
      end
  | _ :: ts' => depth_after d ts'
  end.

Definition inert_h (env : gmap string macro) (th : Cpp.htoken) : Prop :=
  inert env (fst th) = true.

(** A token that replacement passes over: it carries its own name in its
    marks, or names no macro. *)
Definition settled (env : gmap string macro) (th : Cpp.htoken) : bool :=
  match fst th with
  | Ident n => bool_decide (n ∈ snd th) || negb (Cpp.defined n env)
  | _ => true
  end.

(** The macro table of a translation unit once the header is processed. *)
Definition table_after (included : string -> gmap string macro -> gmap string macro)
    (env0 : gmap string macro) : gmap string macro :=
  macros (Cpp.preprocess included orangeom_globals_hpp env0).

(** The words of the try block and of the first handler. *)
Definition handler_words : list token :=
  [Ident "try"; Ident "catch"; Ident "pyexception"; Ident "err";
   Ident "restore"; Ident "return"; Ident "mlexception"].

(** [} catch (pyexception err) { err.restore(); return r; }] *)
Definition first_handler (r : list token) : list token :=
  [ P RBrace;
    Ident "catch"; P LParen; Ident "pyexception"; Ident "err"; P RParen;
    P LBrace;
      Ident "err"; P Dot; Ident "restore"; P LParen; P RParen; P Semi;
      Ident "return" ] ++ r ++ [ P Semi;
    P RBrace ].

(** [catch (mlexception err) {] *)
Definition second_handler_open : list token :=
  [Ident "catch"; P LParen; Ident "mlexception"; Ident "err"; P RParen; P LBrace].

(** [PYERROR(PyExc_OrangeKernel, err.what(), r); }]: what is left of the
    replacement of PyCATCH_r(r) after the first handler, and what the
    table's PYERROR, defined outside the header, acts on. *)
Definition PYERROR_tokens (r : list Cpp.htoken) : list Cpp.htoken :=
  Cpp.plain [Ident "PYERROR"; P LParen; Ident "PyExc_OrangeKernel"; P Comma;
             Ident "err"; P Dot; Ident "what"; P LParen; P RParen; P Comma]
  ++ r ++ Cpp.plain [P RParen; P Semi; P RBrace].

Definition PYERROR_statement (marks : list string) (r : list Cpp.htoken)
    : list Cpp.htoken :=
  Cpp.hsadd marks (PYERROR_tokens r).

(** The replacement of PyCATCH_r(r) up to the body of the second handler. *)
Definition guard_prefix (r : list Cpp.htoken) : list Cpp.htoken :=
  Cpp.plain [ P RBrace;
              Ident "catch"; P LParen; Ident "pyexception"; Ident "err"; P RParen;
              P LBrace;
              Ident "err"; P Dot; Ident "restore"; P LParen; P RParen; P Semi;
              Ident "return" ]
  ++ r
  ++ Cpp.plain [ P Semi; P RBrace;
                 Ident "catch"; P LParen; Ident "mlexception"; Ident "err";
                 P RParen; P LBrace ].

(** Included files under which NULL and PYERROR are macros, to run the
    statements on a table that has them. *)
Definition demo_includes : string -> gmap string macro -> gmap string macro :=
  fun path env =>
    if decide (path = "garbage.hpp")
    then <["NULL" := Macro None [Num "0"]]> env
    else <["PYERROR" :=
             Macro (Some ["type"; "message"; "result"])
               [P LBrace; Ident "PyErr_SetString"; P LParen; Ident "type"; P Comma;
                Ident "message"; P RParen; P Semi;
                Ident "return"; Ident "result"; P Semi; P RBrace]]> env.

(** The header in a unit compiled with _MSC_VER under [demo_includes], and
    what that table makes of the sentinels and of the PYERROR statement. *)
Definition demo_table : gmap string macro :=
  table_after demo_includes (flag ["_MSC_VER"]).

Definition demo_sentinel : list Cpp.htoken :=
  Eval vm_compute in
    default [] (Cpp.expand 5 demo_table (Cpp.plain [Ident "NULL"])).

Definition demo_tail : list Cpp.htoken :=
  Eval vm_compute in
    default [] (Cpp.expand 40 demo_table (PYERROR_statement ["PyCATCH_r"] demo_sentinel)).

Definition demo_PYNULL : list Cpp.htoken :=
  Eval vm_compute in
    default [] (Cpp.expand 20 demo_table
                  (Cpp.hsadd ["PyCATCH"] (Cpp.plain [Ident "PYNULL"]))).

Definition demo_PYNULL_tail : list Cpp.htoken :=
  Eval vm_compute in
    default [] (Cpp.expand 50 demo_table
                  (PYERROR_statement ["PyCATCH_r"; "PyCATCH"] demo_PYNULL)).

(** ** Processing the header *)

Section Processing.
Variable included : string -> gmap string macro -> gmap string macro.

Lemma exec_block_app ds1 ds2 st :
    Cpp.exec_block included (ds1 ++ ds2) st
    = Cpp.exec_block included ds2 (Cpp.exec_block included ds1 st).
  Proof. revert st. induction ds1 as [|d ds1 IH]; intros st; simpl; auto. Qed.

Lemma defined_insert_ne n m v env :
    n <> m -> Cpp.defined m (<[n := v]> env) = Cpp.defined m env.
  Proof. intros Hne. unfold Cpp.defined. by rewrite lookup_insert_ne. Qed.

Lemma defined_insert_eq n v env : Cpp.defined n (<[n := v]> env) = true.
  Proof. unfold Cpp.defined. by rewrite lookup_insert_eq. Qed.
End Processing.

Ltac pp_cases env :=
  let m := fresh "msc" in
  let e := fresh "exports" in
  let d := fresh "debug" in
  unfold Cpp.preprocess, visibility_block; simpl;
  destruct (Cpp.defined "_MSC_VER" env) eqn:m;
  destruct (Cpp.defined "ORANGEOM_EXPORTS" env) eqn:e;
  simpl; rewrite ?defined_insert_ne by discriminate;
  destruct (Cpp.defined "_DEBUG" env) eqn:d; simpl.

(** C6: the visibility block binds ORANGEOM_API to exactly one of three
    annotations, decided by _MSC_VER and ORANGEOM_EXPORTS: dllexport when
    both are defined, dllimport when only _MSC_VER is, and the empty
    annotation otherwise; the three are distinct, and a request to link a
    named library is emitted in the dllimport mode and in no other. *)
Theorem ORANGEOM_API_selection
    (included : string -> gmap string macro -> gmap string macro)
    (env : gmap string macro) :
  macros (Cpp.preprocess included visibility_block env) !! "ORANGEOM_API"
    = Some (Macro None
              (if Cpp.defined "_MSC_VER" env
               then if Cpp.defined "ORANGEOM_EXPORTS" env
                    then declspec "dllexport"
                    else declspec "dllimport"
               else []))
  /\ (declspec "dllexport" <> declspec "dllimport"
      /\ declspec "dllexport" <> [] /\ declspec "dllimport" <> [])
  /\ exists lib,
       emitted (Cpp.preprocess included visibility_block env)
       = if Cpp.defined "_MSC_VER" env && negb (Cpp.defined "ORANGEOM_EXPORTS" env)
         then [LinkLib lib]
         else [].
Proof.
  pp_cases env;
    (split; [by simplify_map_eq|]);
    (split; [by repeat split|]);
    first [ by exists "orange_d.lib" | by exists "orange.lib" ].
Qed.

(** C10: in the dllimport mode the library asked for is orange_d.lib when
    _DEBUG is defined and orange.lib otherwise; in every other mode nothing
    is asked for. *)
Theorem link_request_by_DEBUG
    (included : string -> gmap string macro -> gmap string macro)
    (env : gmap string macro) :
  emitted (Cpp.preprocess included visibility_block env)
  = if Cpp.defined "_MSC_VER" env && negb (Cpp.defined "ORANGEOM_EXPORTS" env)
    then [LinkLib (if Cpp.defined "_DEBUG" env then "orange_d.lib" else "orange.lib")]
    else [].
Proof. by pp_cases env. Qed.

(** The same on the whole header, for the eight settings of the flags. *)
Lemma link_request_whole_header :
  map (fun fs => Cpp.libs (Cpp.preprocess no_includes orangeom_globals_hpp (flag fs)))
      [ []; ["_DEBUG"]; ["ORANGEOM_EXPORTS"]; ["ORANGEOM_EXPORTS"; "_DEBUG"];
        ["_MSC_VER"]; ["_MSC_VER"; "_DEBUG"];
        ["_MSC_VER"; "ORANGEOM_EXPORTS"]; ["_MSC_VER"; "ORANGEOM_EXPORTS"; "_DEBUG"] ]
  = [ []; []; []; []; ["orange.lib"]; ["orange_d.lib"]; []; [] ].
Proof. vm_compute. reflexivity. Qed.

(** ** The wrapper macros *)

Lemma invoke_OMWRAPPER included env (x : list Cpp.htoken) :
  invoke (macros (Cpp.preprocess included wrapper_block env)) "OMWRAPPER" [x]
  = Some ([Ident "BASIC_WRAPPER"; P LParen] ++ Cpp.erase x
          ++ [P Comma; Ident "ORANGENE_API"; P RParen]).
Proof.
  unfold invoke, Cpp.preprocess, wrapper_block; simpl.
  rewrite lookup_insert_ne by discriminate. rewrite lookup_insert_eq.
  simpl. unfold Cpp.erase. f_equal. f_equal. f_equal.
  by rewrite map_app.
Qed.

Lemma invoke_OMVWRAPPER included env (x : list Cpp.htoken) :
  invoke (macros (Cpp.preprocess included wrapper_block env)) "OMVWRAPPER" [x]
  = Some ([Ident "BASIC_VWRAPPER"; P LParen] ++ Cpp.erase x
          ++ [P Comma; Ident "ORANGENE_API"; P RParen]).
Proof.
  unfold invoke, Cpp.preprocess, wrapper_block; simpl.
  rewrite lookup_insert_eq.
  simpl. unfold Cpp.erase. f_equal. f_equal. f_equal.
  by rewrite map_app.
Qed.

(** C7: for every argument x, OMWRAPPER(x) is replaced by
    BASIC_WRAPPER(x, ORANGENE_API) and OMVWRAPPER(x) by
    BASIC_VWRAPPER(x, ORANGENE_API); ORANGENE_API is another name than
    ORANGEOM_API, which the header defines, and no #define of the header
    binds ORANGENE_API. *)
Theorem wrappers_pass_ORANGENE_API
    (included : string -> gmap string macro -> gmap string macro)
    (env : gmap string macro) (x : list Cpp.htoken) :
  invoke (macros (Cpp.preprocess included wrapper_block env)) "OMWRAPPER" [x]
    = Some ([Ident "BASIC_WRAPPER"; P LParen] ++ Cpp.erase x
            ++ [P Comma; Ident "ORANGENE_API"; P RParen])
  /\ invoke (macros (Cpp.preprocess included wrapper_block env)) "OMVWRAPPER" [x]
    = Some ([Ident "BASIC_VWRAPPER"; P LParen] ++ Cpp.erase x
            ++ [P Comma; Ident "ORANGENE_API"; P RParen])
  /\ "ORANGENE_API" <> "ORANGEOM_API"
  /\ ("ORANGEOM_API" ∈ Cpp.defines_block orangeom_globals_hpp)
  /\ ("ORANGENE_API" ∉ Cpp.defines_block orangeom_globals_hpp).
Proof.
  split; [apply invoke_OMWRAPPER|].
  split; [apply invoke_OMVWRAPPER|].
  split; [discriminate|].
  split.
  - apply (bool_decide_unpack _). vm_compute. exact I.
  - apply (bool_decide_unpack _). vm_compute. exact I.
Qed.

(** With the whole header processed, the token stays as written: nothing
    rewrites ORANGENE_API or the external macro's name. *)
Lemma OMWRAPPER_full_expansion :
  Cpp.expand_tokens 50 header_env
    [Ident "OMWRAPPER"; P LParen; Ident "TGraph"; P RParen]
  = Some [Ident "BASIC_WRAPPER"; P LParen; Ident "TGraph"; P Comma;
          Ident "ORANGENE_API"; P RParen]
  /\ Cpp.expand_tokens 50 header_env
    [Ident "OMVWRAPPER"; P LParen; Ident "TGraph"; P RParen]
  = Some [Ident "BASIC_VWRAPPER"; P LParen; Ident "TGraph"; P Comma;
          Ident "ORANGENE_API"; P RParen].
Proof. split; vm_compute; reflexivity. Qed.

(** C8: the wrapper macros only forward: for every argument x the replacement
    of OMWRAPPER(x), respectively OMVWRAPPER(x), is one invocation of
    BASIC_WRAPPER, respectively BASIC_VWRAPPER, with x unchanged as first
    argument and one fixed annotation token, the same for both, as second;
    the result does not depend on the macro table they are defined in, and
    the two targets are not defined by this header. *)
Theorem wrappers_only_forward
    (included : string -> gmap string macro -> gmap string macro) :
  (exists api : string, forall (env : gmap string macro) (x : list Cpp.htoken),
     invoke (macros (Cpp.preprocess included wrapper_block env)) "OMWRAPPER" [x]
       = Some ([Ident "BASIC_WRAPPER"; P LParen] ++ Cpp.erase x
               ++ [P Comma; Ident api; P RParen])
     /\ invoke (macros (Cpp.preprocess included wrapper_block env)) "OMVWRAPPER" [x]
       = Some ([Ident "BASIC_VWRAPPER"; P LParen] ++ Cpp.erase x
               ++ [P Comma; Ident api; P RParen]))
  /\ ("BASIC_WRAPPER" ∉ Cpp.defines_block orangeom_globals_hpp)
  /\ ("BASIC_VWRAPPER" ∉ Cpp.defines_block orangeom_globals_hpp).
Proof.
  split.
  - exists "ORANGENE_API". intros env x.
    split; [apply invoke_OMWRAPPER | apply invoke_OMVWRAPPER].
  - split; apply (bool_decide_unpack _); vm_compute; exact I.
Qed.

(** ** The catch macros as text *)

Lemma catch_block_table included env :
  let table := macros (Cpp.preprocess included catch_block env) in
  table !! "PyTRY" = Some (Macro None [Ident "try"; P LBrace])
  /\ table !! "PYNULL" = Some (Macro None PYNULL_tokens)
  /\ table !! "PyCATCH"
     = Some (Macro None [Ident "PyCATCH_r"; P LParen; Ident "PYNULL"; P RParen])
  /\ table !! "PyCATCH_1"
     = Some (Macro None [Ident "PyCATCH_r"; P LParen; P Minus; Num "1"; P RParen])
  /\ exists repl, table !! "PyCATCH_r" = Some (Macro (Some ["r"]) repl)
       /\ forall r, Cpp.erase (Cpp.subst ["r"] [r] repl) = catch_clauses (Cpp.erase r).
Proof.
  cbv zeta. unfold Cpp.preprocess, catch_block; simpl.
  repeat split; try by simplify_map_eq.
  eexists. split; [by simplify_map_eq|].
  intros r. unfold Cpp.subst, catch_clauses, Cpp.erase. simpl.
  rewrite !map_app. simpl. rewrite !map_app. reflexivity.
Qed.

(** A guarded function body after macro replacement, in the table that
    holds the header's own macros only: PYERROR, which the included file
    defines, stays as written there. *)
Lemma guarded_region_expansion :
  Cpp.expand_tokens 200 header_env
    ( [Ident "PyTRY"; Ident "return"; Ident "f"; P LParen; P RParen; P Semi;
       Ident "PyCATCH_r"; P LParen; Ident "r"; P RParen] )
  = Some ( [Ident "try"; P LBrace; Ident "return"; Ident "f"; P LParen; P RParen; P Semi]
           ++ catch_clauses [Ident "r"] ).
Proof. vm_compute. reflexivity. Qed.

(** ** The exception boundary *)

Section BoundaryFacts.
Import Boundary.
Context `{RT : Runtime} {R : Type}.
Implicit Types (r : R) (region : stmt R) (s : state) (e : exn).

Lemma try_catch_throw region hs s e s' :
    region s = (Throw e, s') ->
    try_catch region hs s
    = match select hs e with Some h => h s' | None => (Throw e, s') end.
  Proof. intros Hr. unfold try_catch. by rewrite Hr. Qed.

Lemma try_catch_quiet region hs s :
    raises (fst (region s)) = false -> try_catch region hs s = region s.
  Proof.
    unfold try_catch. destruct (region s) as [[ |v|e] s']; simpl; congruence.
  Qed.

Lemma seq_throw (a b : stmt R) s e s' :
    a s = (Throw e, s') -> seq a b s = (Throw e, s').
  Proof. intros Ha. unfold seq. by rewrite Ha. Qed.

Lemma seq_return (a b : stmt R) s v s' :
    a s = (Return v, s') -> seq a b s = (Return v, s').
  Proof. intros Ha. unfold seq. by rewrite Ha. Qed.

Lemma caught_kinds r e :
    caught r e = match e with ExPy _ | ExMl _ => true | ExOther _ => false end.
  Proof. by destruct e. Qed.
End BoundaryFacts.

(** C1: when the region throws a pyexception, the guarded call runs that
    exception's restore on the host error indicator as the region left it,
    and returns the sentinel r. *)
Theorem pyexception_restores_and_returns `{RT : Runtime} {R : Type}
    (r : R) (region : Boundary.stmt R) (s s' : Boundary.state) (err : pyexception) :
  region s = (Boundary.Throw (Boundary.ExPy err), s') ->
  Boundary.PyCATCH_r r region s
  = (Boundary.Return r,
     Boundary.State (restore err (Boundary.host_error s')) (Boundary.native s')).
Proof.
  intros Hr. unfold Boundary.PyCATCH_r.
  rewrite (try_catch_throw _ _ _ _ _ Hr). reflexivity.
Qed.

Lemma pyexception_restores_and_returns_witness :
  Demo.failing (R := nat) Demo.type_error Demo.start
    = (Boundary.Throw Demo.type_error, Boundary.State (RT := demo_runtime) None 1)
  /\ Boundary.PyCATCH_r (RT := demo_runtime) 0 (Demo.failing Demo.type_error) Demo.start
    = (Boundary.Return 0,
       Boundary.State (RT := demo_runtime)
         (Some ("PyExc_TypeError", "bad argument")) 1).
Proof.
  split; [reflexivity|].
  apply (pyexception_restores_and_returns (RT := demo_runtime) 0
           (Demo.failing Demo.type_error) Demo.start
           (Boundary.State (RT := demo_runtime) None 1)
           (Some ("PyExc_TypeError", "bad argument"))).
  reflexivity.
Defined.

(** C2: when the region throws an mlexception, the guarded call sets the
    host error indicator to PyExc_OrangeKernel with the text of err.what()
    unchanged, and returns the sentinel r. *)
Theorem mlexception_reports_OrangeKernel `{RT : Runtime} {R : Type}
    (r : R) (region : Boundary.stmt R) (s s' : Boundary.state) (err : mlexception) :
  region s = (Boundary.Throw (Boundary.ExMl err), s') ->
  Boundary.PyCATCH_r r region s
  = (Boundary.Return r,
     Boundary.State (Some (PyExc_OrangeKernel, what err)) (Boundary.native s')).
Proof.
  intros Hr. unfold Boundary.PyCATCH_r.
  rewrite (try_catch_throw _ _ _ _ _ Hr). reflexivity.
Qed.

Lemma mlexception_reports_OrangeKernel_witness :
  Demo.failing (R := nat) Demo.kernel_error Demo.start
    = (Boundary.Throw Demo.kernel_error, Boundary.State (RT := demo_runtime) None 1)
  /\ Boundary.PyCATCH_r (RT := demo_runtime) 0 (Demo.failing Demo.kernel_error) Demo.start
    = (Boundary.Return 0,
       Boundary.State (RT := demo_runtime)
         (Some ("PyExc_OrangeKernel", "invalid graph")) 1).
Proof.
  split; [reflexivity|].
  apply (mlexception_reports_OrangeKernel (RT := demo_runtime) 0
           (Demo.failing Demo.kernel_error) Demo.start
           (Boundary.State (RT := demo_runtime) None 1) "invalid graph").
  reflexivity.
Defined.

(** C3: the boundary has two handlers and they apply to pyexception and
    mlexception only; when the region throws anything else, the guarded
    call returns nothing: the same object leaves it as a throw, with the
    state as the region left it. *)
Theorem foreign_failure_propagates `{RT : Runtime} {R : Type}
    (r : R) (region : Boundary.stmt R) (s s' : Boundary.state) (x : foreign) :
  region s = (Boundary.Throw (Boundary.ExOther x), s') ->
  Boundary.PyCATCH_r r region s = (Boundary.Throw (Boundary.ExOther x), s')
  /\ length (Boundary.PyCATCH_r_handlers r) = 2
  /\ forall e, Boundary.caught r e
       = match e with
         | Boundary.ExPy _ | Boundary.ExMl _ => true
         | Boundary.ExOther _ => false
         end.
Proof.
  intros Hr. split; [|split; [reflexivity | apply caught_kinds]].
  unfold Boundary.PyCATCH_r.
  rewrite (try_catch_throw _ _ _ _ _ Hr). reflexivity.
Qed.

Lemma foreign_failure_propagates_witness :
  Boundary.PyCATCH_r (RT := demo_runtime) 0 (Demo.failing Demo.foreign_error) Demo.start
  = (Boundary.Throw Demo.foreign_error, Boundary.State (RT := demo_runtime) None 1).
Proof.
  apply (foreign_failure_propagates (RT := demo_runtime) 0
           (Demo.failing Demo.foreign_error) Demo.start
           (Boundary.State (RT := demo_runtime) None 1) 5%Z).
  reflexivity.
Defined.

(** C4: when the region raises no failure, the guarded call is the region:
    same returned value (or fall-through) and same state as without the
    wrapping. *)
Theorem wrapping_is_identity_on_success `{RT : Runtime} {R : Type}
    (r : R) (region : Boundary.stmt R) (s : Boundary.state) :
  Boundary.raises (fst (region s)) = false ->
  Boundary.PyCATCH_r r region s = region s.
Proof. intros Hq. unfold Boundary.PyCATCH_r. by apply try_catch_quiet. Qed.

Lemma wrapping_is_identity_on_success_witness :
  Boundary.PyCATCH_r (RT := demo_runtime) None Demo.succeeding Demo.start
  = Demo.succeeding Demo.start
  /\ Demo.succeeding Demo.start
  = (Boundary.Return (Some 7), Boundary.State (RT := demo_runtime) None 2).
Proof.
  split; [|reflexivity].
  apply (wrapping_is_identity_on_success (RT := demo_runtime) None
           Demo.succeeding Demo.start).
  reflexivity.
Defined.

(** C5, as stated, fails: a region that throws something that is neither a
    pyexception nor an mlexception ends in neither of the two outcomes. *)
Lemma two_outcomes_fails_on_foreign_failure :
  ~ Boundary.two_outcomes (RT := demo_runtime) 0
      (Demo.failing Demo.foreign_error) Demo.start.
Proof.
  intros Hclaim.
  destruct (Hclaim Demo.foreign_error (Boundary.State (RT := demo_runtime) None 1) eq_refl)
    as [[err Herr] | [err Herr]]; vm_compute in Herr; discriminate Herr.
Qed.

(** C5, amended: the first failure of the region ends it at once, whatever
    statements follow, the region is not run again (the native state is the
    one its single run left at the failure), and the failure alone decides
    the outward result, one of three: restore-and-return for a pyexception,
    the generic error report for an mlexception, and the same throw leaving
    the boundary for anything else. *)
Theorem first_failure_decides `{RT : Runtime} {R : Type}
    (r : R) (first rest : Boundary.stmt R) (s s' : Boundary.state) (e : Boundary.exn) :
  first s = (Boundary.Throw e, s') ->
  Boundary.PyCATCH_r r (Boundary.seq first rest) s
  = match e with
    | Boundary.ExPy err => Boundary.restore_and_return r err s'
    | Boundary.ExMl err => Boundary.generic_error_report r err s'
    | Boundary.ExOther _ => (Boundary.Throw e, s')
    end
  /\ Boundary.PyCATCH_r r (Boundary.seq first rest) s = Boundary.PyCATCH_r r first s
  /\ Boundary.native (snd (Boundary.PyCATCH_r r (Boundary.seq first rest) s))
     = Boundary.native s'.
Proof.
  intros Hf.
  pose proof (seq_throw first rest s e s' Hf) as Hseq.
  unfold Boundary.PyCATCH_r.
  rewrite (try_catch_throw _ _ _ _ _ Hseq), (try_catch_throw _ _ _ _ _ Hf).
  destruct e; repeat split.
Qed.

Lemma first_failure_decides_witness :
  Boundary.PyCATCH_r (RT := demo_runtime) 0
    (Boundary.seq (Boundary.seq Demo.tick (Boundary.throw Demo.kernel_error)) Demo.tick)
    Demo.start
  = (Boundary.Return 0,
     Boundary.State (RT := demo_runtime) (Some ("PyExc_OrangeKernel", "invalid graph")) 1).
Proof.
  apply (first_failure_decides (RT := demo_runtime) 0
           (Boundary.seq Demo.tick (Boundary.throw Demo.kernel_error)) Demo.tick
           Demo.start (Boundary.State (RT := demo_runtime) None 1) Demo.kernel_error).
  reflexivity.
Defined.

(** C9: PyCATCH and PyCATCH_1 take no argument and are PyCATCH_r(PYNULL) and
    PyCATCH_r(-1), with PYNULL defined as ((PyObject * )NULL); only PyCATCH_r
    has a parameter, r, which its replacement returns.  In every macro
    table, replacing PyCATCH (PyCATCH_1) is replacing PyCATCH_r(PYNULL)
    (PyCATCH_r(-1)).  At run time a pyexception or an mlexception thrown
    under PyCATCH makes the guarded call return PYNULL, and under PyCATCH_1
    return -1 (each as the function's return type holds it), with the
    error indicator as the handler leaves it; every other outcome of the
    region passes unchanged. *)
Theorem convenience_forms_fix_the_sentinel `{RT : Runtime} {R R1 : Type}
    (included : string -> gmap string macro -> gmap string macro)
    (env : gmap string macro) (fuel : nat)
    (convert : option PyObject -> R) (convert1 : Z -> R1)
    (region : Boundary.stmt R) (region1 : Boundary.stmt R1)
    (s : Boundary.state) :
  (macros (Cpp.preprocess included catch_block env) !! "PyCATCH"
     = Some (Macro None [Ident "PyCATCH_r"; P LParen; Ident "PYNULL"; P RParen])
   /\ macros (Cpp.preprocess included catch_block env) !! "PYNULL"
     = Some (Macro None
               [P LParen; P LParen; Ident "PyObject"; P Star; P RParen;
                Ident "NULL"; P RParen])
   /\ macros (Cpp.preprocess included catch_block env) !! "PyCATCH_1"
     = Some (Macro None [Ident "PyCATCH_r"; P LParen; P Minus; Num "1"; P RParen])
   /\ exists repl,
        macros (Cpp.preprocess included catch_block env) !! "PyCATCH_r"
          = Some (Macro (Some ["r"]) repl)
        /\ forall sentinel : list Cpp.htoken,
             Cpp.erase (Cpp.subst ["r"] [sentinel] repl)
             = catch_clauses (Cpp.erase sentinel))
  /\ (Cpp.expand (S fuel) (macros (Cpp.preprocess included catch_block env))
        [(Ident "PyCATCH", [])]
      = Cpp.expand fuel (macros (Cpp.preprocess included catch_block env))
          (Cpp.hsadd ["PyCATCH"]
             (Cpp.plain [Ident "PyCATCH_r"; P LParen; Ident "PYNULL"; P RParen]))
      /\ Cpp.expand (S fuel) (macros (Cpp.preprocess included catch_block env))
        [(Ident "PyCATCH_1", [])]
      = Cpp.expand fuel (macros (Cpp.preprocess included catch_block env))
          (Cpp.hsadd ["PyCATCH_1"]
             (Cpp.plain [Ident "PyCATCH_r"; P LParen; P Minus; Num "1"; P RParen])))
  /\ Boundary.PyCATCH convert region s
     = match region s with
       | (Boundary.Throw (Boundary.ExPy err), s') =>
           (Boundary.Return (convert Boundary.PYNULL),
            Boundary.State (restore err (Boundary.host_error s')) (Boundary.native s'))
       | (Boundary.Throw (Boundary.ExMl err), s') =>
           (Boundary.Return (convert Boundary.PYNULL),
            Boundary.State (Some (PyExc_OrangeKernel, what err)) (Boundary.native s'))
       | other => other
       end
  /\ Boundary.PyCATCH_1 convert1 region1 s
     = match region1 s with
       | (Boundary.Throw (Boundary.ExPy err), s') =>
           (Boundary.Return (convert1 (-1)%Z),
            Boundary.State (restore err (Boundary.host_error s')) (Boundary.native s'))
       | (Boundary.Throw (Boundary.ExMl err), s') =>
           (Boundary.Return (convert1 (-1)%Z),
            Boundary.State (Some (PyExc_OrangeKernel, what err)) (Boundary.native s'))
       | other => other
       end.
Proof.
  pose proof (catch_block_table included env) as Ht. cbv zeta in Ht.
  destruct Ht as (_ & Hnull & Hc & Hc1 & Hr).
  split; [auto|].
  split.
  { split; cbn [Cpp.expand];
      rewrite bool_decide_eq_false_2 by apply not_elem_of_nil;
      [rewrite Hc | rewrite Hc1]; by rewrite app_nil_r. }
  unfold Boundary.PyCATCH, Boundary.PyCATCH_1, Boundary.PyCATCH_r, Boundary.try_catch.
  split.
  - destruct (region s) as [[ |v|[err|err|x]] s']; reflexivity.
  - destruct (region1 s) as [[ |v|[err|err|x]] s']; reflexivity.
Qed.

(** [return -1;] in a function returning int, unsigned and bool. *)
Lemma minus_one_by_return_type :
  to_int (-1) = (-1)%Z /\ to_unsigned (-1) = 4294967295%Z /\ to_bool (-1) = true.
Proof. repeat split. Qed.

(** PyCATCH_1 in an unsigned function and PyCATCH in a function returning
    [PyObject *], on a region that fails with an mlexception. *)
Lemma convenience_forms_on_demo_regions :
  Boundary.PyCATCH_1 (RT := demo_runtime) to_unsigned
    (Demo.failing Demo.kernel_error) Demo.start
  = (Boundary.Return 4294967295%Z,
     Boundary.State (RT := demo_runtime)
       (Some ("PyExc_OrangeKernel", "invalid graph")) 1)
  /\ Boundary.PyCATCH (RT := demo_runtime) (fun p => p)
    (Demo.failing Demo.type_error) Demo.start
  = (Boundary.Return None,
     Boundary.State (RT := demo_runtime)
       (Some ("PyExc_TypeError", "bad argument")) 1).
Proof. split; reflexivity. Qed.

(** ** The include guard and the header as a whole *)

(** Induction over directives and the directives nested in them. *)
Section DirectiveInd.
Variable Q : directive -> Prop.
Hypothesis HIfdef : forall n t e, Forall Q t -> Forall Q e -> Q (Ifdef n t e).
Hypothesis HIfndef : forall n t e, Forall Q t -> Forall Q e -> Q (Ifndef n t e).
Hypothesis HDefine : forall n ps repl, Q (Define n ps repl).
Hypothesis HInclude : forall path, Q (Include path).
Hypothesis HPragma : forall lib, Q (PragmaCommentLib lib).

Lemma directive_nested_ind : forall d, Q d.
Proof.
  fix IH 1. intros [n t e|n t e|n ps repl|path|lib].
  - apply HIfdef; [induction t | induction e]; constructor; auto.
  - apply HIfndef; [induction t | induction e]; constructor; auto.
  - apply HDefine.
  - apply HInclude.
  - apply HPragma.
Qed.
End DirectiveInd.

Section Keeps.
Variable included : string -> gmap string macro -> gmap string macro.

Lemma exec_Ifdef n t e st :
  Cpp.exec included (Ifdef n t e) st
  = if Cpp.defined n (macros st) then Cpp.exec_block included t st
    else Cpp.exec_block included e st.
Proof. reflexivity. Qed.

Lemma exec_Ifndef n t e st :
  Cpp.exec included (Ifndef n t e) st
  = if Cpp.defined n (macros st) then Cpp.exec_block included e st
    else Cpp.exec_block included t st.
Proof. reflexivity. Qed.

Lemma defined_insert_mono n m v env :
  Cpp.defined m env = true -> Cpp.defined m (<[n := v]> env) = true.
Proof.
  intros Hd. destruct (decide (n = m)) as [->|Hne].
  - apply defined_insert_eq.
  - by rewrite defined_insert_ne.
Qed.

Variable name : string.
Hypothesis included_keeps : forall path env,
  Cpp.defined name env = true -> Cpp.defined name (included path env) = true.

Lemma exec_keeps_defined d : forall st,
  Cpp.defined name (macros st) = true ->
  Cpp.defined name (macros (Cpp.exec included d st)) = true.
Proof.
  induction d as [n t e IHt IHe|n t e IHt IHe|n ps repl|path|lib]
    using directive_nested_ind; intros st Hst.
  - rewrite exec_Ifdef. destruct (Cpp.defined n (macros st)).
    + clear IHe. revert st Hst. induction IHt as [|d ds Hd _ IH]; intros st Hst; simpl; auto.
    + clear IHt. revert st Hst. induction IHe as [|d ds Hd _ IH]; intros st Hst; simpl; auto.
  - rewrite exec_Ifndef. destruct (Cpp.defined n (macros st)).
    + clear IHt. revert st Hst. induction IHe as [|d ds Hd _ IH]; intros st Hst; simpl; auto.
    + clear IHe. revert st Hst. induction IHt as [|d ds Hd _ IH]; intros st Hst; simpl; auto.
  - simpl. by apply defined_insert_mono.
  - simpl. by apply included_keeps.
  - simpl. done.
Qed.

Lemma exec_block_keeps_defined ds : forall st,
  Cpp.defined name (macros st) = true ->
  Cpp.defined name (macros (Cpp.exec_block included ds st)) = true.
Proof.
  induction ds as [|d ds IH]; intros st Hst; simpl; [done|].
  apply IH. by apply exec_keeps_defined.
Qed.
End Keeps.

Lemma include_guard_skips included st :
  Cpp.defined "__ORANGEOM_GLOBALS" (macros st) = true ->
  Cpp.exec_block included orangeom_globals_hpp st = st.
Proof.
  intros Hg. unfold orangeom_globals_hpp.
  cbn [Cpp.exec_block]. rewrite exec_Ifndef, Hg. reflexivity.
Qed.

Lemma header_defines_guard included st :
  (forall path env, Cpp.defined "__ORANGEOM_GLOBALS" env = true ->
     Cpp.defined "__ORANGEOM_GLOBALS" (included path env) = true) ->
  Cpp.defined "__ORANGEOM_GLOBALS"
    (macros (Cpp.exec_block included orangeom_globals_hpp st)) = true.
Proof.
  intros Hinc.
  destruct (Cpp.defined "__ORANGEOM_GLOBALS" (macros st)) eqn:Hg.
  - by rewrite include_guard_skips.
  - unfold orangeom_globals_hpp. cbn [Cpp.exec_block].
    rewrite exec_Ifndef, Hg.
    cbn [app Cpp.exec_block].
    apply exec_block_keeps_defined; [done|].
    simpl. apply Hinc, defined_insert_eq.
Qed.

(** X1: including the header a second time changes nothing, neither the
    macro table nor the requests, provided the included files leave the
    guard __ORANGEOM_GLOBALS defined. *)
Theorem header_twice_is_once
    (included : string -> gmap string macro -> gmap string macro)
    (st : pp_state) :
  (forall path env, Cpp.defined "__ORANGEOM_GLOBALS" env = true ->
     Cpp.defined "__ORANGEOM_GLOBALS" (included path env) = true) ->
  Cpp.exec_block included orangeom_globals_hpp
    (Cpp.exec_block included orangeom_globals_hpp st)
  = Cpp.exec_block included orangeom_globals_hpp st.
Proof.
  intros Hinc. apply include_guard_skips. by apply header_defines_guard.
Qed.

Lemma header_twice_is_once_witness :
  Cpp.exec_block no_includes orangeom_globals_hpp
    (Cpp.exec_block no_includes orangeom_globals_hpp (PP (flag ["_MSC_VER"]) []))
  = Cpp.exec_block no_includes orangeom_globals_hpp (PP (flag ["_MSC_VER"]) []).
Proof.
  apply (header_twice_is_once no_includes (PP (flag ["_MSC_VER"]) [])).
  intros path env Hd. exact Hd.
Defined.

(** X2: the visibility block changes the macro table at ORANGEOM_API and
    EXPIMP_TEMPLATE and nowhere else; EXPIMP_TEMPLATE is [extern] in the
    dllimport mode and empty in the two others. *)
Theorem visibility_block_table
    (included : string -> gmap string macro -> gmap string macro)
    (env : gmap string macro) :
  macros (Cpp.preprocess included visibility_block env)
  = <["EXPIMP_TEMPLATE" :=
        Macro None
          (if Cpp.defined "_MSC_VER" env && negb (Cpp.defined "ORANGEOM_EXPORTS" env)
           then [Ident "extern"] else [])]>
      (<["ORANGEOM_API" :=
           Macro None
             (if Cpp.defined "_MSC_VER" env
              then if Cpp.defined "ORANGEOM_EXPORTS" env
                   then declspec "dllexport" else declspec "dllimport"
              else [])]> env).
Proof. by pp_cases env. Qed.

Lemma visibility_block_emits included env out :
  emitted (Cpp.exec_block included visibility_block (PP env out))
  = out ++ (if Cpp.defined "_MSC_VER" env && negb (Cpp.defined "ORANGEOM_EXPORTS" env)
            then [LinkLib (if Cpp.defined "_DEBUG" env
                           then "orange_d.lib" else "orange.lib")]
            else []).
Proof.
  unfold visibility_block; simpl.
  destruct (Cpp.defined "_MSC_VER" env) eqn:Hm;
    destruct (Cpp.defined "ORANGEOM_EXPORTS" env) eqn:He;
    simpl; rewrite ?defined_insert_ne by discriminate;
    destruct (Cpp.defined "_DEBUG" env) eqn:Hd; simpl;
    by rewrite ?app_nil_r.
Qed.

Lemma header_first_pass included env :
  Cpp.defined "__ORANGEOM_GLOBALS" env = false ->
  Cpp.preprocess included orangeom_globals_hpp env
  = Cpp.exec_block included catch_block
      (Cpp.exec included (Include "../pyxtract/pyxtract_macros.hpp")
         (Cpp.exec_block included wrapper_block
            (Cpp.exec_block included visibility_block
               (PP (included "garbage.hpp"
                      (<["__ORANGEOM_GLOBALS" := Macro None []]> env))
                   [IncludeFile "garbage.hpp"])))).
Proof.
  intros Hg. unfold Cpp.preprocess, orangeom_globals_hpp.
  cbn [Cpp.exec_block]. rewrite exec_Ifndef. cbn [macros]. rewrite Hg.
  cbn [app Cpp.exec_block].
  rewrite !exec_block_app. reflexivity.
Qed.

(** X3: when the guard is not yet defined, the header leaves PyTRY, PYNULL,
    PyCATCH, PyCATCH_1 and PyCATCH_r bound to its own replacement lists,
    whatever the table held before and whatever the two included files do
    to it. *)
Theorem catch_macros_after_header
    (included : string -> gmap string macro -> gmap string macro)
    (env : gmap string macro) :
  Cpp.defined "__ORANGEOM_GLOBALS" env = false ->
  Forall (fun n => macros (Cpp.preprocess included orangeom_globals_hpp env) !! n
                   = header_env !! n)
         ["PyTRY"; "PYNULL"; "PyCATCH"; "PyCATCH_1"; "PyCATCH_r"].
Proof.
  intros Hg. rewrite (header_first_pass _ _ Hg).
  set (st0 := Cpp.exec included _ _).
  unfold catch_block; simpl.
  repeat constructor; simplify_map_eq; vm_compute; reflexivity.
Qed.

(** X4: when the guard is not yet defined, the header asks for garbage.hpp
    first and ../pyxtract/pyxtract_macros.hpp last, in every build mode;
    the link request, if any, comes between them and is decided by the
    flags as they stand after garbage.hpp. *)
Theorem header_requests
    (included : string -> gmap string macro -> gmap string macro)
    (env : gmap string macro) :
  Cpp.defined "__ORANGEOM_GLOBALS" env = false ->
  emitted (Cpp.preprocess included orangeom_globals_hpp env)
  = [IncludeFile "garbage.hpp"]
    ++ (if Cpp.defined "_MSC_VER"
             (included "garbage.hpp" (<["__ORANGEOM_GLOBALS" := Macro None []]> env))
           && negb (Cpp.defined "ORANGEOM_EXPORTS"
             (included "garbage.hpp" (<["__ORANGEOM_GLOBALS" := Macro None []]> env)))
        then [LinkLib (if Cpp.defined "_DEBUG"
             (included "garbage.hpp" (<["__ORANGEOM_GLOBALS" := Macro None []]> env))
                       then "orange_d.lib" else "orange.lib")]
        else [])
    ++ [IncludeFile "../pyxtract/pyxtract_macros.hpp"].
Proof.
  intros Hg. rewrite (header_first_pass _ _ Hg).
  unfold catch_block, wrapper_block. cbn [Cpp.exec_block Cpp.exec emitted macros].
  rewrite visibility_block_emits. by rewrite <- app_assoc.
Qed.

(** ** More on the exception boundary *)

Section BoundaryMore.
Import Boundary.
Context `{RT : Runtime} {R : Type}.

(** X5: no pyexception and no mlexception leaves a guarded region: a
    throw that leaves it carries an object of another kind, thrown by the
    region itself, and the state is the one the region left. *)
Theorem only_foreign_failures_escape (r : R) (region : stmt R) (s : state) (e : exn) :
  fst (PyCATCH_r r region s) = Throw e ->
  (exists x, e = ExOther x) /\ PyCATCH_r r region s = region s.
Proof.
  unfold PyCATCH_r, try_catch.
  destruct (region s) as [[ |v|[err|err|x]] s']; simpl; intros He;
    try discriminate He; inversion He; subst; eauto.
Qed.

(** X6: a guarded region inside a guarded region: the outer boundary never
    acts, and the inner sentinel is the one returned. *)
Theorem nested_guard_is_inner_guard (r1 r2 : R) (region : stmt R) (s : state) :
  PyCATCH_r r1 (PyCATCH_r r2 region) s = PyCATCH_r r2 region s.
Proof.
  unfold PyCATCH_r, try_catch.
  destruct (region s) as [[ |v|[err|err|x]] s']; reflexivity.
Qed.

(** X7: statements written after the catch clauses run only when the
    region fell through without returning or throwing; in every other case
    the guarded call alone decides the outcome. *)
Theorem after_guard_only_on_fallthrough (r : R) (region after : stmt R) (s : state) :
  seq (PyCATCH_r r region) after s
  = match region s with
    | (Fallthrough, s') => after s'
    | _ => PyCATCH_r r region s
    end.
Proof.
  unfold seq, PyCATCH_r, try_catch.
  destruct (region s) as [[ |v|[err|err|x]] s']; reflexivity.
Qed.
End BoundaryMore.

Section Expansion.
Import Cpp.
Variable env : gmap string macro.

Local Abbreviation inert_h := (inert_h env).

Lemma expand_skip f t hs rest :
  inert env t = true ->
  expand (S f) env ((t, hs) :: rest) = cons (t, hs) <$> expand f env rest.
Proof.
  intros Hi. destruct t as [n|p|d]; simpl; try reflexivity.
  unfold inert, defined in Hi.
  destruct (bool_decide (n ∈ hs)); [reflexivity|].
  by destruct (env !! n).
Qed.

Lemma expand_inert_app pre : forall rest f,
  Forall inert_h pre -> length pre <= f ->
  expand f env (pre ++ rest) = (app pre) <$> expand (f - length pre) env rest.
Proof.
  induction pre as [|[t hs] pre IH]; intros rest f Hpre Hf.
  - simpl. rewrite Nat.sub_0_r. by destruct (expand f env rest).
  - destruct f as [|f]; [simpl in Hf; lia|].
    inversion Hpre as [|? ? Ht Hpre']; subst.
    change (((t, hs) :: pre) ++ rest) with ((t, hs) :: (pre ++ rest)).
    rewrite (expand_skip _ _ _ _ Ht).
    rewrite (IH rest f Hpre') by (simpl in Hf; lia).
    simpl. by destruct (expand (f - length pre) env rest).
Qed.

Lemma expand_inert_all ts f :
  Forall inert_h ts -> length ts < f -> expand f env ts = Some ts.
Proof.
  intros Hts Hf.
  rewrite <- (app_nil_r ts) at 1.
  rewrite expand_inert_app by (done || lia).
  destruct (f - length ts) as [|k] eqn:Hk; [lia|].
  simpl. by rewrite app_nil_r.
Qed.

Lemma expand_object f n hs repl rest :
  n ∉ hs -> env !! n = Some (Macro None repl) ->
  expand (S f) env ((Ident n, hs) :: rest)
  = expand f env (hsadd (n :: hs) (plain repl) ++ rest).
Proof.
  intros Hn Hl. simpl. rewrite bool_decide_eq_false_2 by done. by rewrite Hl.
Qed.

Lemma expand_function f n hs ps repl hp rest' args hs' rest'' args' :
  n ∉ hs -> env !! n = Some (Macro (Some ps) repl) ->
  collect 0 [] [] rest' = Some (args, hs', rest'') ->
  length args = length ps ->
  mapM (expand f env) args = Some args' ->
  expand (S f) env ((Ident n, hs) :: (P LParen, hp) :: rest')
  = expand f env (hsadd (n :: inter hs hs') (subst ps args' repl) ++ rest'').
Proof.
  intros Hn Hl Hc Hlen Hm. simpl.
  rewrite bool_decide_eq_false_2 by done. rewrite Hl, Hc.
  rewrite decide_True by done. by rewrite Hm.
Qed.

Lemma expand_mono : forall f ts v,
  expand f env ts = Some v -> forall f', f <= f' -> expand f' env ts = Some v.
Proof.
  induction f as [|f IH]; intros ts v Hv f' Hle; [discriminate|].
  destruct f' as [|f']; [lia|].
  assert (Hle' : f <= f') by lia.
  assert (Hcons : forall t rest,
            cons t <$> expand f env rest = Some v ->
            cons t <$> expand f' env rest = Some v).
  { intros t rest Hc. destruct (expand f env rest) as [w|] eqn:Ew; [|discriminate].
    by rewrite (IH _ _ Ew f' Hle'). }
  destruct ts as [|[t hs] rest]; [done|].
  destruct t as [n|p|d]; simpl in *; [|by apply Hcons..].
  destruct (bool_decide (n ∈ hs)); [by apply Hcons|].
  destruct (env !! n) as [[[ps|] repl]|]; [| by eapply IH | by apply Hcons].
  destruct rest as [|[[m|[]|d] hp] rest']; try by apply Hcons.
  destruct (collect 0 [] [] rest') as [[[args hs'] rest'']|]; [|done].
  destruct (decide (length args = length ps)); [|done].
  destruct (mapM (expand f env) args) as [args'|] eqn:Em; [|done].
  simpl in Hv.
  assert (mapM (expand f' env) args = Some args') as ->.
  { apply mapM_Some. apply mapM_Some in Em.
    eapply Forall2_impl; [exact Em|]. intros x y Hxy. by eapply IH. }
  simpl. by eapply IH.
Qed.

Lemma collect_balanced (x : list htoken) : forall d d' cur acc rest,
  depth_after d (erase x) = Some d' ->
  collect d cur acc (x ++ rest) = collect d' (rev x ++ cur) acc rest.
Proof.
  induction x as [|[t hs] x IH]; intros d d' cur acc rest Hd; simpl in Hd.
  - by inversion Hd.
  - simpl rev. rewrite <- app_assoc. simpl.
    destruct t as [n|[]|dg]; try (by apply IH);
      destruct d as [|d0]; try discriminate Hd; by apply IH.
Qed.

Lemma inert_plain ts :
  forallb (inert env) ts = true -> Forall inert_h (plain ts).
Proof.
  induction ts as [|t ts IH]; simpl; [constructor|].
  intros [Ht Hts]%andb_prop. constructor; auto.
Qed.

Lemma inert_erase ts :
  forallb (inert env) (erase ts) = true -> Forall inert_h ts.
Proof.
  induction ts as [|[t hs] ts IH]; simpl; [constructor|].
  intros [Ht Hts]%andb_prop. constructor; auto.
Qed.

Lemma erase_hsadd hs ts : erase (hsadd hs ts) = erase ts.
Proof. unfold erase, hsadd. rewrite map_map. reflexivity. Qed.

Lemma erase_plain ts : erase (plain ts) = ts.
Proof. unfold erase, plain. rewrite map_map. simpl. apply map_id. Qed.

Lemma erase_app (a b : list htoken) : erase (a ++ b) = erase a ++ erase b.
Proof. apply map_app. Qed.

Lemma length_erase ts : length (erase ts) = length ts.
Proof. apply length_map. Qed.
End Expansion.

(** ** Macro replacement for every body and argument *)

Lemma header_env_PyCATCH_r :
  exists repl, header_env !! "PyCATCH_r" = Some (Macro (Some ["r"]) repl)
    /\ forall x, Cpp.erase (Cpp.subst ["r"] [x] repl) = catch_clauses (Cpp.erase x).
Proof.
  eexists. split; [vm_compute; reflexivity|].
  intros x. unfold Cpp.subst, catch_clauses, Cpp.erase. simpl.
  rewrite !map_app. simpl. rewrite !map_app. reflexivity.
Qed.

Lemma header_env_wrappers :
  header_env !! "OMWRAPPER"
  = Some (Macro (Some ["x"])
            [Ident "BASIC_WRAPPER"; P LParen; Ident "x"; P Comma;
             Ident "ORANGENE_API"; P RParen])
  /\ header_env !! "OMVWRAPPER"
  = Some (Macro (Some ["x"])
            [Ident "BASIC_VWRAPPER"; P LParen; Ident "x"; P Comma;
             Ident "ORANGENE_API"; P RParen]).
Proof. split; vm_compute; reflexivity. Qed.

Lemma collect_one_argument (x : list Cpp.htoken) hs rest :
  depth_after 0 (Cpp.erase x) = Some 0 ->
  Cpp.collect 0 [] [] (x ++ (P RParen, hs) :: rest) = Some ([x], hs, rest).
Proof.
  intros Hd. rewrite (collect_balanced x 0 0 [] [] _ Hd).
  simpl. by rewrite app_nil_r, rev_involutive.
Qed.

Lemma expand_wrapper (name target : string) (x : list token) (fuel : nat) :
  header_env !! name
    = Some (Macro (Some ["x"])
              [Ident target; P LParen; Ident "x"; P Comma;
               Ident "ORANGENE_API"; P RParen]) ->
  target <> "x" ->
  Cpp.defined target header_env = false ->
  forallb (inert header_env) x = true ->
  depth_after 0 x = Some 0 ->
  length x + 10 <= fuel ->
  Cpp.expand_tokens fuel header_env ([Ident name; P LParen] ++ x ++ [P RParen])
  = Some ([Ident target; P LParen] ++ x ++ [P Comma; Ident "ORANGENE_API"; P RParen]).
Proof.
  intros Hl Hne Htarget Hx Hd Hf. unfold Cpp.expand_tokens.
  replace (Cpp.plain ([Ident name; P LParen] ++ x ++ [P RParen]))
    with ((Ident name, []) :: (P LParen, []) :: Cpp.plain x ++ [(P RParen, [])])
    by (unfold Cpp.plain; simpl; by rewrite map_app).
  destruct fuel as [|f]; [lia|].
  rewrite (expand_function header_env f name [] ["x"] _ []
             (Cpp.plain x ++ [(P RParen, [])]) [Cpp.plain x] [] [] [Cpp.plain x]
             (not_elem_of_nil _) Hl).
  - rewrite app_nil_r. unfold Cpp.subst. simpl.
    rewrite decide_False by (intros Heq; by apply Hne).
    assert (Her : forall hs,
              Cpp.erase (Cpp.hsadd hs
                ([(Ident target, [])] ++ (P LParen, [])
                 :: Cpp.plain x
                    ++ [(P Comma, []); (Ident "ORANGENE_API", []); (P RParen, [])]))
              = [Ident target; P LParen] ++ x
                ++ [P Comma; Ident "ORANGENE_API"; P RParen]).
    { intros hs. rewrite erase_hsadd.
      change ([(Ident target, [])] ++ (P LParen, []) :: Cpp.plain x
              ++ [(P Comma, []); (Ident "ORANGENE_API", []); (P RParen, [])])
        with (Cpp.plain [Ident target; P LParen] ++ Cpp.plain x
              ++ Cpp.plain [P Comma; Ident "ORANGENE_API"; P RParen]).
      by rewrite !erase_app, !erase_plain. }
    rewrite expand_inert_all.
    + cbn [fmap option_fmap option_map]. by rewrite Her.
    + apply inert_erase. rewrite Her.
      rewrite !forallb_app, Hx. simpl. rewrite Htarget. vm_compute. reflexivity.
    + rewrite <- length_erase, Her, !length_app. simpl. lia.
  - apply collect_one_argument. by rewrite erase_plain.
  - reflexivity.
  - apply mapM_Some. constructor; [|constructor].
    apply expand_inert_all; [by apply inert_plain|].
    unfold Cpp.plain. rewrite length_map. lia.
Qed.

(** X10: with the whole header processed, OMWRAPPER(x) and OMVWRAPPER(x)
    are replaced in full by BASIC_WRAPPER(x, ORANGENE_API) and
    BASIC_VWRAPPER(x, ORANGENE_API) for every one-argument x of tokens that
    name no macro: nothing the header defines rewrites the result. *)
Theorem wrappers_expand_for_every_argument (x : list token) (fuel : nat) :
  forallb (inert header_env) x = true ->
  depth_after 0 x = Some 0 ->
  length x + 10 <= fuel ->
  Cpp.expand_tokens fuel header_env ([Ident "OMWRAPPER"; P LParen] ++ x ++ [P RParen])
    = Some ([Ident "BASIC_WRAPPER"; P LParen] ++ x
            ++ [P Comma; Ident "ORANGENE_API"; P RParen])
  /\ Cpp.expand_tokens fuel header_env ([Ident "OMVWRAPPER"; P LParen] ++ x ++ [P RParen])
    = Some ([Ident "BASIC_VWRAPPER"; P LParen] ++ x
            ++ [P Comma; Ident "ORANGENE_API"; P RParen]).
Proof.
  intros Hx Hd Hf. destruct header_env_wrappers as [Hw Hv].
  split; apply expand_wrapper; try done; vm_compute; reflexivity.
Qed.

Lemma wrappers_expand_for_every_argument_witness :
  Cpp.expand_tokens 20 header_env
    ([Ident "OMWRAPPER"; P LParen] ++ [Ident "TGraph"] ++ [P RParen])
  = Some ([Ident "BASIC_WRAPPER"; P LParen] ++ [Ident "TGraph"]
          ++ [P Comma; Ident "ORANGENE_API"; P RParen]).
Proof.
  apply (wrappers_expand_for_every_argument [Ident "TGraph"] 20).
  - vm_compute. reflexivity.
  - reflexivity.
  - simpl. lia.
Defined.

Lemma collect_two_arguments (a b : list Cpp.htoken) h1 h2 rest :
  depth_after 0 (Cpp.erase a) = Some 0 ->
  depth_after 0 (Cpp.erase b) = Some 0 ->
  Cpp.collect 0 [] [] (a ++ (P Comma, h1) :: b ++ (P RParen, h2) :: rest)
  = Some ([a; b], h2, rest).
Proof.
  intros Ha Hb.
  rewrite (collect_balanced a 0 0 [] [] _ Ha). simpl.
  rewrite (collect_balanced b 0 0 [] _ _ Hb). simpl.
  by rewrite !app_nil_r, !rev_involutive.
Qed.

Lemma expand_two_arguments env name p repl (a b : list token) (fuel : nat) :
  env !! name = Some (Macro (Some [p]) repl) ->
  depth_after 0 a = Some 0 ->
  depth_after 0 b = Some 0 ->
  Cpp.expand_tokens fuel env
    ([Ident name; P LParen] ++ a ++ [P Comma] ++ b ++ [P RParen]) = None.
Proof.
  intros Hl Ha Hb. unfold Cpp.expand_tokens.
  replace (Cpp.plain ([Ident name; P LParen] ++ a ++ [P Comma] ++ b ++ [P RParen]))
    with ((Ident name, []) :: (P LParen, [])
          :: Cpp.plain a ++ (P Comma, []) :: Cpp.plain b ++ (P RParen, []) :: [])
    by (unfold Cpp.plain; simpl; rewrite !map_app; simpl; by rewrite map_app).
  destruct fuel as [|f]; [reflexivity|].
  cbn [Cpp.expand]. rewrite bool_decide_eq_false_2 by apply not_elem_of_nil.
  rewrite Hl.
  rewrite collect_two_arguments by (by rewrite erase_plain).
  reflexivity.
Qed.

(** X11: OMWRAPPER, OMVWRAPPER and PyCATCH_r take one argument: an
    invocation whose argument has a comma outside parentheses has no
    replacement, whatever the fuel. *)
Theorem one_parameter_macros_reject_two_arguments (a b : list token) (fuel : nat) :
  depth_after 0 a = Some 0 ->
  depth_after 0 b = Some 0 ->
  Forall (fun name =>
            Cpp.expand_tokens fuel header_env
              ([Ident name; P LParen] ++ a ++ [P Comma] ++ b ++ [P RParen]) = None)
         ["OMWRAPPER"; "OMVWRAPPER"; "PyCATCH_r"].
Proof.
  intros Ha Hb.
  destruct header_env_wrappers as [Hw Hv].
  destruct header_env_PyCATCH_r as (repl & Hl & _).
  repeat constructor; eapply expand_two_arguments; eauto.
Qed.

Lemma one_parameter_macros_reject_two_arguments_witness :
  Forall (fun name =>
            Cpp.expand_tokens 100 header_env
              ([Ident name; P LParen] ++ [Ident "TMap"] ++ [P Comma]
               ++ [Ident "TGraph"] ++ [P RParen]) = None)
         ["OMWRAPPER"; "OMVWRAPPER"; "PyCATCH_r"].
Proof.
  apply (one_parameter_macros_reject_two_arguments [Ident "TMap"] [Ident "TGraph"] 100);
    reflexivity.
Defined.

Lemma catch_macros_after_header_witness :
  Forall (fun n => macros (Cpp.preprocess no_includes orangeom_globals_hpp
                             (flag ["_MSC_VER"; "PyTRY"])) !! n
                   = header_env !! n)
         ["PyTRY"; "PYNULL"; "PyCATCH"; "PyCATCH_1"; "PyCATCH_r"].
Proof.
  apply (catch_macros_after_header no_includes (flag ["_MSC_VER"; "PyTRY"])).
  vm_compute. reflexivity.
Defined.

Lemma header_requests_witness :
  emitted (Cpp.preprocess no_includes orangeom_globals_hpp (flag ["_MSC_VER"; "_DEBUG"]))
  = [IncludeFile "garbage.hpp"; LinkLib "orange_d.lib";
     IncludeFile "../pyxtract/pyxtract_macros.hpp"].
Proof.
  apply (header_requests no_includes (flag ["_MSC_VER"; "_DEBUG"])).
  vm_compute. reflexivity.
Defined.

Lemma only_foreign_failures_escape_witness :
  (exists x, Demo.foreign_error = Boundary.ExOther (RT := demo_runtime) x)
  /\ Boundary.PyCATCH_r (RT := demo_runtime) 0 (Demo.failing Demo.foreign_error) Demo.start
     = Demo.failing Demo.foreign_error Demo.start.
Proof.
  apply (only_foreign_failures_escape (RT := demo_runtime) 0
           (Demo.failing Demo.foreign_error) Demo.start Demo.foreign_error).
  reflexivity.
Defined.

(** ** Guarded regions in the table of a translation unit *)

Section Settled.
Import Cpp.
Variable env : gmap string macro.

Lemma expand_skip_settled f th rest :
  settled env th = true ->
  expand (S f) env (th :: rest) = cons th <$> expand f env rest.
Proof.
  destruct th as [t hs]. unfold settled. simpl fst; simpl snd.
  destruct t as [n|p|d]; intros Hs; simpl; try reflexivity.
  destruct (bool_decide (n ∈ hs)); [reflexivity|].
  simpl in Hs. unfold defined in Hs. by destruct (env !! n).
Qed.

Lemma expand_settled_app pre : forall rest f,
  forallb (settled env) pre = true -> length pre <= f ->
  expand f env (pre ++ rest) = (app pre) <$> expand (f - length pre) env rest.
Proof.
  induction pre as [|th pre IH]; intros rest f Hpre Hf.
  - simpl. rewrite Nat.sub_0_r. by destruct (expand f env rest).
  - destruct f as [|f]; [simpl in Hf; lia|].
    simpl in Hpre. apply andb_prop in Hpre as [Hth Hpre].
    change ((th :: pre) ++ rest) with (th :: (pre ++ rest)).
    rewrite (expand_skip_settled _ _ _ Hth).
    rewrite (IH rest f Hpre) by (simpl in Hf; lia).
    simpl. by destruct (expand (f - length pre) env rest).
Qed.

Lemma expand_settled_all ts f :
  forallb (settled env) ts = true -> length ts < f -> expand f env ts = Some ts.
Proof.
  intros Hts Hf.
  rewrite <- (app_nil_r ts) at 1.
  rewrite expand_settled_app by (done || lia).
  destruct (f - length ts) as [|k] eqn:Hk; [lia|].
  simpl. by rewrite app_nil_r.
Qed.

Lemma settled_hsadd hs ts :
  forallb (settled env) ts = true -> forallb (settled env) (hsadd hs ts) = true.
Proof.
  induction ts as [|[t ths] ts IH]; simpl; [done|].
  intros [Ht Hts]%andb_prop. rewrite (IH Hts), andb_true_r.
  unfold settled in *. simpl in *. destruct t as [n|p|d]; try done.
  apply orb_prop in Ht as [Ht|Ht]; [|by rewrite Ht, orb_true_r].
  apply bool_decide_eq_true in Ht.
  rewrite bool_decide_eq_true_2; [done|]. apply elem_of_app. by right.
Qed.

Lemma settled_plain hs ts :
  forallb (inert env) ts = true -> forallb (settled env) (hsadd hs (plain ts)) = true.
Proof.
  induction ts as [|t ts IH]; simpl; [done|].
  intros [Ht Hts]%andb_prop. rewrite (IH Hts), andb_true_r.
  unfold settled, inert in *. simpl. destruct t as [n|p|d]; try done.
  by rewrite Ht, orb_true_r.
Qed.

Lemma hsadd_app hs (a b : list htoken) : hsadd hs (a ++ b) = hsadd hs a ++ hsadd hs b.
Proof. apply map_app. Qed.

Lemma length_hsadd hs ts : length (hsadd hs ts) = length ts.
Proof. apply length_map. Qed.

Lemma length_plain ts : length (plain ts) = length ts.
Proof. apply length_map. Qed.
End Settled.

Lemma subst_PyCATCH_r (x : list Cpp.htoken) :
  exists repl, header_env !! "PyCATCH_r" = Some (Macro (Some ["r"]) repl)
    /\ Cpp.subst ["r"] [x] repl = guard_prefix x ++ PYERROR_tokens x.
Proof.
  eexists. split; [vm_compute; reflexivity|].
  unfold Cpp.subst, guard_prefix, PYERROR_tokens. simpl.
  rewrite <- !app_assoc. simpl. reflexivity.
Qed.

Lemma erase_guard_prefix hs (x : list Cpp.htoken) :
  Cpp.erase (Cpp.hsadd hs (guard_prefix x))
  = first_handler (Cpp.erase x) ++ second_handler_open.
Proof.
  rewrite erase_hsadd. unfold guard_prefix, first_handler, second_handler_open.
  rewrite !erase_app, !erase_plain. rewrite <- !app_assoc. reflexivity.
Qed.

(** The five catch macros in the table after the header. *)
Lemma table_after_catch_macros included env0 :
  Cpp.defined "__ORANGEOM_GLOBALS" env0 = false ->
  Forall (fun n => table_after included env0 !! n = header_env !! n)
         ["PyTRY"; "PYNULL"; "PyCATCH"; "PyCATCH_1"; "PyCATCH_r"].
Proof.
  intros Hg. unfold table_after. rewrite (header_first_pass _ _ Hg).
  set (st0 := Cpp.exec included _ _).
  unfold catch_block; simpl.
  repeat constructor; simplify_map_eq; vm_compute; reflexivity.
Qed.

Section InTable.
Import Cpp.
Variable T : gmap string macro.
Hypothesis T_PyTRY : T !! "PyTRY" = header_env !! "PyTRY".
Hypothesis T_PyCATCH_r : T !! "PyCATCH_r" = header_env !! "PyCATCH_r".
Hypothesis words_inert : forallb (inert T) handler_words = true.

Lemma settled_guard_prefix hs (x : list htoken) :
  forallb (settled T) x = true ->
  forallb (settled T) (hsadd hs (guard_prefix x)) = true.
Proof.
  intros Hx. unfold guard_prefix. rewrite !hsadd_app, !forallb_app.
  rewrite (settled_hsadd T hs x Hx).
  simpl in words_inert.
  repeat (apply andb_prop in words_inert as [? words_inert]).
  rewrite !settled_plain; [done|simpl..]; by repeat (apply andb_true_intro; split).
Qed.

Lemma expand_PyCATCH_r_call f f0 f1 hs0 (x x' tail : list htoken) :
  "PyCATCH_r" ∉ hs0 ->
  depth_after 0 (erase x) = Some 0 ->
  expand f0 T x = Some x' ->
  forallb (settled T) x' = true ->
  expand f1 T (PYERROR_statement ("PyCATCH_r" :: inter hs0 hs0) x') = Some tail ->
  f0 <= f -> f1 + length x' + 22 <= f ->
  expand (S f) T ((Ident "PyCATCH_r", hs0) :: (P LParen, hs0) :: x ++ [(P RParen, hs0)])
  = Some (hsadd ("PyCATCH_r" :: inter hs0 hs0) (guard_prefix x') ++ tail).
Proof.
  intros Hn Hd Hx Hs Htail Hf0 Hf1.
  destruct (subst_PyCATCH_r x') as (repl & Hl & Hsubst).
  rewrite <- T_PyCATCH_r in Hl.
  rewrite (expand_function T f "PyCATCH_r" hs0 ["r"] repl hs0
             (x ++ [(P RParen, hs0)]) [x] hs0 [] [x'] Hn Hl).
  - rewrite app_nil_r, Hsubst, hsadd_app.
    rewrite expand_settled_app.
    + rewrite (expand_mono T _ _ _ Htail); [reflexivity|].
      rewrite length_hsadd. unfold guard_prefix.
      rewrite !length_app, !length_plain. simpl. lia.
    + by apply settled_guard_prefix.
    + rewrite length_hsadd. unfold guard_prefix.
      rewrite !length_app, !length_plain. simpl. lia.
  - by apply collect_one_argument.
  - reflexivity.
  - apply mapM_Some. constructor; [|constructor].
    by apply (expand_mono T _ _ _ Hx).
Qed.

Lemma expand_PyTRY_body (body : list token) (rest : list htoken) (f : nat) :
  forallb (inert T) body = true ->
  length body + 3 <= f ->
  expand f T ((Ident "PyTRY", []) :: plain body ++ rest)
  = app (hsadd ["PyTRY"] (plain [Ident "try"; P LBrace]) ++ plain body)
      <$> expand (f - (length body + 3)) T rest.
Proof.
  intros Hb Hf. destruct f as [|f]; [lia|].
  assert (Hl : T !! "PyTRY" = Some (Macro None [Ident "try"; P LBrace])).
  { rewrite T_PyTRY. vm_compute. reflexivity. }
  rewrite (expand_object T _ _ _ _ _ (not_elem_of_nil _) Hl).
  rewrite app_assoc.
  rewrite expand_inert_app.
  - rewrite length_app, length_hsadd, !length_plain.
    simpl length. f_equal. f_equal. lia.
  - apply Forall_app. split; [|by apply inert_plain].
    simpl in words_inert. apply andb_prop in words_inert as [Htry _].
    repeat constructor; done.
  - rewrite length_app, length_hsadd, !length_plain. simpl. lia.
Qed.
End InTable.

Lemma table_after_bindings included env0 :
  Cpp.defined "__ORANGEOM_GLOBALS" env0 = false ->
  table_after included env0 !! "PyTRY" = header_env !! "PyTRY"
  /\ table_after included env0 !! "PyCATCH_r" = header_env !! "PyCATCH_r"
  /\ table_after included env0 !! "PyCATCH"
     = Some (Macro None [Ident "PyCATCH_r"; P LParen; Ident "PYNULL"; P RParen])
  /\ table_after included env0 !! "PyCATCH_1"
     = Some (Macro None [Ident "PyCATCH_r"; P LParen; P Minus; Num "1"; P RParen]).
Proof.
  intros Hg. pose proof (table_after_catch_macros included env0 Hg) as Hall.
  inversion Hall as [|? ? Htry Hall1]; subst.
  inversion Hall1 as [|? ? Hnull Hall2]; subst.
  inversion Hall2 as [|? ? Hc Hall3]; subst.
  inversion Hall3 as [|? ? Hc1 Hall4]; subst.
  inversion Hall4 as [|? ? Hr _]; subst.
  repeat split; done.
Qed.

(** When PYERROR, PyExc_OrangeKernel and what name no macro either, the
    second handler stays as written. *)
Lemma PYERROR_as_written T marks (r' : list Cpp.htoken) (f : nat) :
  forallb (inert T) [Ident "PYERROR"; Ident "PyExc_OrangeKernel"; Ident "err";
                     Ident "what"] = true ->
  forallb (settled T) r' = true ->
  length r' + 13 < f ->
  Cpp.expand f T (PYERROR_statement marks r') = Some (PYERROR_statement marks r').
Proof.
  intros Hw Hr Hf. apply expand_settled_all.
  - unfold PYERROR_statement, PYERROR_tokens.
    rewrite !hsadd_app, !forallb_app, (settled_hsadd T marks r' Hr).
    simpl in Hw. repeat (apply andb_prop in Hw as [? Hw]).
    rewrite !settled_plain; [done|simpl..]; by repeat (apply andb_true_intro; split).
  - unfold PYERROR_statement, PYERROR_tokens.
    rewrite length_hsadd, !length_app, !length_plain. simpl. lia.
Qed.

(** X8: in the macro table of any translation unit that has processed the
    header (any flags, any included files), for every body whose tokens
    name no macro, the words of the handlers naming none either, and every
    one-argument sentinel r: PyTRY body PyCATCH_r(r) is replaced, given
    enough fuel, by try { body } catch (pyexception err) { err.restore();
    return r'; } catch (mlexception err) { followed by what the table makes
    of PYERROR(PyExc_OrangeKernel, err.what(), r'); }, where r' is what the
    table makes of r. *)
Theorem guarded_region_expands
    (included : string -> gmap string macro -> gmap string macro)
    (env0 : gmap string macro) (body r : list token)
    (r' tail : list Cpp.htoken) (f0 f1 fuel : nat) :
  Cpp.defined "__ORANGEOM_GLOBALS" env0 = false ->
  forallb (inert (table_after included env0)) (handler_words ++ body) = true ->
  depth_after 0 r = Some 0 ->
  Cpp.expand f0 (table_after included env0) (Cpp.plain r) = Some r' ->
  forallb (settled (table_after included env0)) r' = true ->
  Cpp.expand f1 (table_after included env0) (PYERROR_statement ["PyCATCH_r"] r')
    = Some tail ->
  f0 + f1 + length body + length r' + 30 <= fuel ->
  Cpp.expand_tokens fuel (table_after included env0)
    ([Ident "PyTRY"] ++ body ++ [Ident "PyCATCH_r"; P LParen] ++ r ++ [P RParen])
  = Some ([Ident "try"; P LBrace] ++ body
          ++ first_handler (Cpp.erase r') ++ second_handler_open ++ Cpp.erase tail).
Proof.
  intros Hg Hin Hd Hr Hs Htail Hf.
  destruct (table_after_bindings included env0 Hg) as (Htry & Hcr & _ & _).
  rewrite forallb_app in Hin. apply andb_prop in Hin as [Hw Hb].
  unfold Cpp.expand_tokens.
  replace (Cpp.plain ([Ident "PyTRY"] ++ body ++ [Ident "PyCATCH_r"; P LParen]
                      ++ r ++ [P RParen]))
    with ((Ident "PyTRY", []) :: Cpp.plain body
          ++ (Ident "PyCATCH_r", []) :: (P LParen, [])
             :: Cpp.plain r ++ [(P RParen, [])])
    by (unfold Cpp.plain; simpl; rewrite !map_app; simpl; by rewrite map_app).
  rewrite (expand_PyTRY_body _ Htry Hw) by (done || lia).
  destruct (fuel - (length body + 3)) as [|f] eqn:Ef; [lia|].
  rewrite (expand_PyCATCH_r_call _ Hcr Hw f f0 f1 [] (Cpp.plain r) r' tail);
    try done; try lia.
  - cbn [fmap option_fmap option_map]. f_equal.
    rewrite !erase_app, erase_guard_prefix, erase_hsadd, !erase_plain.
    by rewrite <- !app_assoc.
  - apply not_elem_of_nil.
  - by rewrite erase_plain.
Qed.

(** X9: in the same tables and for the same bodies, PyTRY body PyCATCH and
    PyTRY body PyCATCH_1 are replaced, given enough fuel, by the text that
    PyCATCH_r gives for the sentinel PYNULL, respectively -1: try { body },
    the first handler returning what the table makes of the sentinel, and
    the second handler with what the table makes of PYERROR on it. *)
Theorem guarded_region_expands_PyCATCH
    (included : string -> gmap string macro -> gmap string macro)
    (env0 : gmap string macro) (name : string) (sentinel body : list token)
    (p' tail : list Cpp.htoken) (f0 f1 fuel : nat) :
  Cpp.defined "__ORANGEOM_GLOBALS" env0 = false ->
  (name = "PyCATCH" /\ sentinel = [Ident "PYNULL"])
  \/ (name = "PyCATCH_1" /\ sentinel = [P Minus; Num "1"]) ->
  forallb (inert (table_after included env0)) (handler_words ++ body) = true ->
  Cpp.expand f0 (table_after included env0) (Cpp.hsadd [name] (Cpp.plain sentinel))
    = Some p' ->
  forallb (settled (table_after included env0)) p' = true ->
  Cpp.expand f1 (table_after included env0)
    (PYERROR_statement ["PyCATCH_r"; name] p') = Some tail ->
  f0 + f1 + length body + length p' + 30 <= fuel ->
  Cpp.expand_tokens fuel (table_after included env0)
    ([Ident "PyTRY"] ++ body ++ [Ident name])
  = Some ([Ident "try"; P LBrace] ++ body
          ++ first_handler (Cpp.erase p') ++ second_handler_open ++ Cpp.erase tail).
Proof.
  intros Hg Hform Hin Hp Hs Htail Hf.
  destruct (table_after_bindings included env0 Hg) as (Htry & Hcr & Hc & Hc1).
  rewrite forallb_app in Hin. apply andb_prop in Hin as [Hw Hb].
  unfold Cpp.expand_tokens.
  replace (Cpp.plain ([Ident "PyTRY"] ++ body ++ [Ident name]))
    with ((Ident "PyTRY", []) :: Cpp.plain body ++ [(Ident name, [])])
    by (unfold Cpp.plain; simpl; by rewrite map_app).
  rewrite (expand_PyTRY_body _ Htry Hw) by (done || lia).
  destruct (fuel - (length body + 3)) as [|f] eqn:Ef; [lia|].
  destruct f as [|f]; [lia|].
  destruct Hform as [[-> ->]|[-> ->]].
  - rewrite (expand_object _ _ _ _ _ _ (not_elem_of_nil _) Hc).
    rewrite app_nil_r.
    change (Cpp.hsadd ["PyCATCH"]
              (Cpp.plain [Ident "PyCATCH_r"; P LParen; Ident "PYNULL"; P RParen]))
      with ((Ident "PyCATCH_r", ["PyCATCH"]) :: (P LParen, ["PyCATCH"])
            :: Cpp.hsadd ["PyCATCH"] (Cpp.plain [Ident "PYNULL"])
               ++ [(P RParen, ["PyCATCH"])]).
    rewrite (expand_PyCATCH_r_call _ Hcr Hw f f0 f1 ["PyCATCH"] _ p' tail);
      try done; try lia.
    + cbn [fmap option_fmap option_map]. f_equal.
      rewrite !erase_app, erase_guard_prefix, erase_hsadd, !erase_plain.
      by rewrite <- !app_assoc.
    + by intros [=]%list_elem_of_singleton.
  - rewrite (expand_object _ _ _ _ _ _ (not_elem_of_nil _) Hc1).
    rewrite app_nil_r.
    change (Cpp.hsadd ["PyCATCH_1"]
              (Cpp.plain [Ident "PyCATCH_r"; P LParen; P Minus; Num "1"; P RParen]))
      with ((Ident "PyCATCH_r", ["PyCATCH_1"]) :: (P LParen, ["PyCATCH_1"])
            :: Cpp.hsadd ["PyCATCH_1"] (Cpp.plain [P Minus; Num "1"])
               ++ [(P RParen, ["PyCATCH_1"])]).
    rewrite (expand_PyCATCH_r_call _ Hcr Hw f f0 f1 ["PyCATCH_1"] _ p' tail);
      try done; try lia.
    + cbn [fmap option_fmap option_map]. f_equal.
      rewrite !erase_app, erase_guard_prefix, erase_hsadd, !erase_plain.
      by rewrite <- !app_assoc.
    + by intros [=]%list_elem_of_singleton.
Qed.

Lemma guarded_region_expands_witness :
  Cpp.expand_tokens 100 demo_table
    ([Ident "PyTRY"] ++ [Ident "return"; Ident "graph"; P Semi]
     ++ [Ident "PyCATCH_r"; P LParen] ++ [Ident "NULL"] ++ [P RParen])
  = Some ([Ident "try"; P LBrace] ++ [Ident "return"; Ident "graph"; P Semi]
          ++ first_handler [Num "0"] ++ second_handler_open
          ++ [ P LBrace; Ident "PyErr_SetString"; P LParen;
               Ident "PyExc_OrangeKernel"; P Comma;
               Ident "err"; P Dot; Ident "what"; P LParen; P RParen; P RParen; P Semi;
               Ident "return"; Num "0"; P Semi; P RBrace; P Semi; P RBrace ]).
Proof.
  apply (guarded_region_expands demo_includes (flag ["_MSC_VER"])
           [Ident "return"; Ident "graph"; P Semi] [Ident "NULL"]
           demo_sentinel demo_tail 5 40 100).
  - vm_compute. reflexivity.
  - vm_compute. reflexivity.
  - reflexivity.
  - vm_compute. reflexivity.
  - vm_compute. reflexivity.
  - vm_compute. reflexivity.
  - simpl. lia.
Defined.

Lemma guarded_region_expands_PyCATCH_witness :
  Cpp.expand_tokens 120 demo_table
    ([Ident "PyTRY"] ++ [Ident "return"; Ident "graph"; P Semi] ++ [Ident "PyCATCH"])
  = Some ([Ident "try"; P LBrace] ++ [Ident "return"; Ident "graph"; P Semi]
          ++ first_handler
               [P LParen; P LParen; Ident "PyObject"; P Star; P RParen; Num "0"; P RParen]
          ++ second_handler_open
          ++ [ P LBrace; Ident "PyErr_SetString"; P LParen;
               Ident "PyExc_OrangeKernel"; P Comma;
               Ident "err"; P Dot; Ident "what"; P LParen; P RParen; P RParen; P Semi;
               Ident "return";
               P LParen; P LParen; Ident "PyObject"; P Star; P RParen; Num "0"; P RParen;
               P Semi; P RBrace; P Semi; P RBrace ]).
Proof.
  apply (guarded_region_expands_PyCATCH demo_includes (flag ["_MSC_VER"])
           "PyCATCH" [Ident "PYNULL"] [Ident "return"; Ident "graph"; P Semi]
           demo_PYNULL demo_PYNULL_tail 20 50 120).
  - vm_compute. reflexivity.
  - left. split; reflexivity.
  - vm_compute. reflexivity.
  - vm_compute. reflexivity.
  - vm_compute. reflexivity.
  - vm_compute. reflexivity.
  - simpl. lia.
Defined.
